(** * mirror: compile-time reflection of aggregates

    A shallow embedding of [src/mirror.hh] (header variant, ceiling 127),
    [src/mirror.cc] (module variant, ceiling 32) and of the generator
    template [meta/mirror.hh] they are both produced from.

    The library is a compile-time program: its inputs are C++ types, its
    outputs are compile-time constants, or a compilation error.  A type is
    represented here by the facts of its declaration that the templates
    inspect ([class_decl]); a compilation error is [None].

    [class_decl] describes class types: structs and classes, with their
    direct base classes, and unions, tuple-like or not.  A non-static
    data member is a bit-field, an anonymous union, a reference, or an
    object that is an array or not, of a type that a probe of the library
    can or cannot initialise. *)

From stdpp Require Import base numbers option list gmap.
From Stdlib Require Import ZArith Lia.

Local Open Scope Z_scope.

(** ** The C++ types the templates are instantiated with *)

Inductive class_key : Type :=
| Struct    (* struct or class *)
| Union.

(** Type of a non-static data member of object type. *)
Inductive object_type : Type :=
| Obj
    (* a non-array object type that a probe converts to: arithmetic,
       enumeration, pointer, aggregate class, named union, class whose
       constructors do not compete with the conversion *)
| Opaque
    (* a non-array, non-aggregate object type that a probe does not
       initialise: a class with a converting constructor template, which
       makes the initialisation from a probe ambiguous *)
| Arr (elem : object_type) (extent : positive).
    (* elem[extent] *)

Inductive member : Type :=
| Field (t : object_type)
| BitField
| AnonymousUnion
    (* union { ... }; without a name: one unnamed member of union type *)
| Reference (binds_probe : bool).
    (* a member of reference type; a reference to const and an rvalue
       reference bind to the converted probe, an lvalue reference to
       non-const does not *)

(** What an lvalue obtained from an object designates. *)
Inductive designation : Type :=
| OwnMember       (* a member subobject of the object *)
| Referee         (* the object that a member of reference type is bound to *)
| TupleElement.   (* what get<i> returns for the object *)

#[global] Instance designation_eq_dec : EqDecision designation.
Proof. solve_decision. Defined.

#[global] Instance designation_countable : Countable designation.
Proof.
  refine (inj_countable'
            (fun d => match d with
                      | OwnMember => 0 | Referee => 1 | TupleElement => 2
                      end%nat)
            (fun n => match n with
                      | 0 => OwnMember | 1 => Referee | _ => TupleElement
                      end%nat) _).
  now intros [].
Defined.

(** What a direct base class contributes to the class derived from it. *)
Record base_class : Type := Base {
  base_convertible : bool;
    (* a probe converts to the type of the base class *)
  inherited : list member;
    (* the non-static data members of the base class subobject, its own
       and those it inherits, in declaration order *)
  inherited_bindable : bool
    (* they are accessible direct members of one class *)
}.

(** What the declaration of a class type [T] says, as far as the templates
    can observe it.  [members] lists the direct non-static data members in
    declaration order; the three [..._constructible]/[..._initializable]
    fields are the compiler's answers to the standard concepts of the same
    name; [sizeof] is sizeof(T), which is never zero.  [tuple_like] is
    std::tuple_size<T>::value where the program specialises
    std::tuple_size for T (as the library does for std::array).  For a
    type that is not reflexible, [probes_accepted k] is the compiler's
    answer to whether [T{p1, ..., pk}] is well-formed for probes
    [p1 ... pk]: it depends on constructors and default member
    initializers, which are not described. *)
Record class_decl : Type := Decl {
  key : class_key;
  bases : list base_class;       (* direct base classes, in order *)
  user_declared_ctor : bool;     (* user-declared or inherited constructors *)
  nonpublic_member : bool;       (* private or protected data members *)
  virtual_function : bool;
    (* virtual functions; virtual, private or protected base classes *)
  members : list member;
  default_initializable : bool;
  copy_constructible : bool;
  move_constructible : bool;
  sizeof : positive;
  tuple_like : option nat;
  probes_accepted : nat -> bool
}.

(** A struct without base classes that is not tuple-like. *)
Definition Class (ctor nonpublic virt : bool) (ms : list member)
    (dflt copy move : bool) (size : positive) : class_decl :=
  Decl Struct [] ctor nonpublic virt ms dflt copy move size None
       (fun _ => false).

(** std::is_aggregate_v, [dcl.init.aggr]/1. *)
Definition is_aggregate (T : class_decl) : bool :=
  negb (user_declared_ctor T) && negb (nonpublic_member T)
  && negb (virtual_function T).

(** ** The reflexible concept *)

(** mirror.hh:23-26:
    (is_aggregate_v<T> && default_initializable<T>) &&
    (copy_constructible<T> || move_constructible<T>) *)
Definition reflexible (T : class_decl) : bool :=
  (is_aggregate T && default_initializable T)
  && (copy_constructible T || move_constructible T).

(** mirror.cc:23-26, the same concept without the inner parentheses. *)
Definition reflexible_module (T : class_decl) : bool :=
  is_aggregate T && default_initializable T
  && (copy_constructible T || move_constructible T).

(** ** Probes and the constructibility test *)

(** [universal<T, I>]: a value of slot [I] whose only member is the
    conversion function template [operator U()], constrained to
    [U] different from [T]. *)
Record universal : Type := Universal { slot : nat }.

(** Can a probe initialise an object of type [t]?  The conversion function
    template yields every type but [T] (no member of a complete class has
    the type of the class itself); it does not initialise an object whose
    own converting constructor template competes with it; a conversion
    function cannot yield an array ([class.conv.fct]). *)
Definition convertible (u : universal) (t : object_type) : bool :=
  match t with
  | Obj => true
  | Opaque => false
  | Arr _ _ => false
  end.

(** Aggregate initialisation of one element from the front of the list of
    initializer clauses, [dcl.init.aggr]: with no clause left the element
    is initialised from an empty list; a clause that can initialise the
    element does so; otherwise, for an element that is itself an aggregate
    (here: an array), braces are elided and the clauses initialise its
    elements in turn; otherwise the initialisation is ill-formed.  The
    result is the list of clauses left over. *)
Fixpoint init_object (t : object_type) (clauses : list universal)
  : option (list universal) :=
  match clauses with
  | [] => Some []
  | u :: rest =>
      if convertible u t then Some rest
      else match t with
           | Arr elem extent =>
               Nat.iter (Pos.to_nat extent)
                        (fun st => st ≫= init_object elem) (Some clauses)
           | _ => None
           end
  end.

Definition init_member (m : member) (clauses : list universal)
  : option (list universal) :=
  match m with
  | Field t => init_object t clauses
  | BitField => Some (tail clauses)
  | AnonymousUnion => Some (tail clauses)
  | Reference binds =>
      match clauses with
      | [] => Some []
      | _ :: rest => if binds then Some rest else None
      end
  end.

(** A base class as an element of the aggregate: an object of class
    type. *)
Definition base_element (b : base_class) : member :=
  Field (if base_convertible b then Obj else Opaque).

(** The elements of an aggregate class, [dcl.init.aggr]/2: the direct base
    classes, then the direct non-static data members.  Of a union an
    initializer list initialises the first member only. *)
Definition elements (T : class_decl) : list member :=
  match key T with
  | Struct => map base_element (bases T) ++ members T
  | Union => take 1 (members T)
  end.

(** [T{c1, ..., ck}] for an aggregate [T]: the elements are initialised in
    order; clauses left over after the last element make the expression
    ill-formed.  Elements without a clause are initialised from their
    default member initializer or from an empty list, which is
    well-formed when T is default-initializable. *)
Definition aggregate_initialization (T : class_decl)
    (clauses : list universal) : bool :=
  match foldl (fun st m => st ≫= init_member m) (Some clauses) (elements T) with
  | Some [] => true
  | _ => false
  end.

(** [T{c1, ..., ck}], [dcl.init.list]: aggregate initialisation for the
    types the library instantiates the test with, which are reflexible,
    hence default-initializable aggregates; the compiler's answer
    otherwise. *)
Definition list_initialization (T : class_decl) (clauses : list universal)
  : bool :=
  if reflexible T then aggregate_initialization T clauses
  else probes_accepted T (length clauses).

(** mirror.hh:47-50: requires { T{declval<universal<T, Indices>>()...}; } *)
Definition constructible_from (T : class_decl) (Indices : list nat) : bool :=
  list_initialization T (map Universal Indices).

(** mirror.hh:56-62: the concept applied to make_index_sequence<N>. *)
Definition is_constructible (T : class_decl) (N : Z) : bool :=
  constructible_from T (seq 0 (Z.to_nat N)).

(** Number of initializer clauses an element accepts when braces are
    elided; 0 for an element that no clause can initialise.  Used in
    statements only. *)
Fixpoint clauses_of_object (t : object_type) : nat :=
  match t with
  | Obj => 1
  | Opaque => 0
  | Arr elem extent => Pos.to_nat extent * clauses_of_object elem
  end.

Definition clauses_of_member (m : member) : nat :=
  match m with
  | Field t => clauses_of_object t
  | BitField => 1
  | AnonymousUnion => 1
  | Reference binds => if binds then 1 else 0
  end.

(** The clauses a list of elements accepts: those of its elements in
    order, up to the first one that no clause can initialise. *)
Fixpoint clauses_of_elements (es : list member) : nat :=
  match es with
  | [] => 0
  | e :: es' =>
      match clauses_of_member e with
      | O => 0
      | S c => S c + clauses_of_elements es'
      end
  end.

Definition clauses_accepted (T : class_decl) : nat :=
  clauses_of_elements (elements T).

Definition is_bit_field (m : member) : bool :=
  match m with
  | BitField => true
  | _ => false
  end.

Definition is_anonymous_union (m : member) : bool :=
  match m with
  | AnonymousUnion => true
  | _ => false
  end.

Definition is_reference (m : member) : bool :=
  match m with
  | Reference _ => true
  | _ => false
  end.

(** The non-static data members of an object of type [T]: those of its
    base class subobjects, then its own. *)
Definition data_members (T : class_decl) : list member :=
  concat (map inherited (bases T)) ++ members T.

Definition declares_members (b : base_class) : bool :=
  match inherited b with
  | [] => false
  | _ :: _ => true
  end.

(** All non-static data members are direct members of [T] or of the same
    base class of [T], [dcl.struct.bind]. *)
Definition single_owner (T : class_decl) : bool :=
  match members T, List.filter declares_members (bases T) with
  | _, [] => true
  | [], [b] => inherited_bindable b
  | _, _ => false
  end.

(** The types a structured binding declaration decomposes member by
    member, [dcl.struct.bind]: not tuple-like, not a union, the members
    accessible direct members of one class, none of them an anonymous
    union. *)
Definition decomposable (T : class_decl) : bool :=
  match tuple_like T, key T with
  | None, Struct =>
      negb (nonpublic_member T) && single_owner T
      && forallb (fun m => negb (is_anonymous_union m)) (data_members T)
  | _, _ => false
  end.

Definition no_bit_field (T : class_decl) : bool :=
  forallb (fun m => negb (is_bit_field m)) (data_members T).

Definition no_reference_member (T : class_decl) : bool :=
  forallb (fun m => negb (is_reference m)) (data_members T).

(** Every member takes exactly one clause: it is not an array of more
    than one element, and a probe can initialise it. *)
Definition one_clause_each (T : class_decl) : bool :=
  forallb (fun m => (clauses_of_member m =? 1)%nat) (members T).

(** ** Sample declarations *)

(** struct { int a[2]; } *)
Definition one_array : class_decl :=
  Class false false false [Field (Arr Obj 2)] true true true 8.

(** struct { int a = 1; int b = 2; int c = 3; } *)
Definition three_ints : class_decl :=
  Class false false false [Field Obj; Field Obj; Field Obj] true true true 12.

(** struct { } *)
Definition empty_class : class_decl :=
  Class false false false [] true true true 1.

(** struct { unsigned flag : 1; } *)
Definition one_bit_field : class_decl :=
  Class false false false [BitField] true true true 4.

(** struct { int v; explicit T(int); }: T{p} calls the constructor, no
    other list of probes is accepted. *)
Definition with_constructor : class_decl :=
  Decl Struct [] true false false [Field Obj] false true true 4 None
       (fun k => (k =? 1)%nat).

(** struct { int n; int v[3]; } *)
Definition int_and_array : class_decl :=
  Class false false false [Field Obj; Field (Arr Obj 3)] true true true 16.

(** A class of [n] int members. *)
Definition ints (n : nat) : class_decl :=
  Class false false false (repeat (Field Obj) n) true true true
        (Pos.of_nat (4 * n)).

(** union { int a; float b; } *)
Definition two_member_union : class_decl :=
  Decl Union [] false false false [Field Obj; Field Obj] true true true 4
       None (fun _ => false).

(** union { int a; } *)
Definition one_member_union : class_decl :=
  Decl Union [] false false false [Field Obj] true true true 4
       None (fun _ => false).

(** struct { int tag; union { int i; float f; }; } *)
Definition tagged_union : class_decl :=
  Class false false false [Field Obj; AnonymousUnion] true true true 8.

(** struct greedy { greedy() = default; template <class U> greedy(U&&); };
    struct { greedy g; int x; } *)
Definition has_greedy : class_decl :=
  Class false false false [Field Opaque; Field Obj] true true true 8.

(** struct E { }; struct D : E { }; *)
Definition derived_empty : class_decl :=
  Decl Struct [Base true [] true] false false false [] true true true 1
       None (fun _ => false).

(** struct B { int x; }; struct D : B { int y; }; *)
Definition split_members : class_decl :=
  Decl Struct [Base true [Field Obj] true] false false false [Field Obj]
       true true true 8 None (fun _ => false).

(** std::array<int, 1>: one member of type int[1], and
    std::tuple_size<std::array<int, 1>>::value = 1. *)
Definition array_of_one : class_decl :=
  Decl Struct [] false false false [Field (Arr Obj 1)] true true true 4
       (Some 1%nat) (fun _ => false).

(** struct P { int a; int b; }; with
    template <> struct std::tuple_size<P> : std::integral_constant<3> *)
Definition pair_of_size_three : class_decl :=
  Decl Struct [] false false false [Field Obj; Field Obj] true true true 8
       (Some 3%nat) (fun _ => false).

(** extern const int g; struct { const int& r = g; } *)
Definition const_reference : class_decl :=
  Class false false false [Reference true] true true true 8.

(** extern int g; struct { int& r = g; }: no probe binds to r. *)
Definition lvalue_reference : class_decl :=
  Class false false false [Reference false] true true true 8.

(** struct E1 { }; ... struct E9 { };
    struct { [[no_unique_address]] E1 e1; ...
             [[no_unique_address]] E9 e9; }: nine members, one byte. *)
Definition nine_empty : class_decl :=
  Class false false false (repeat (Field Obj) 9) true true true 1.

(** ** size_t arithmetic and the search *)

Section Platform.

(** Width of std::size_t in bits and the macro CHAR_BIT of <climits>. *)
Variable size_bits : Z.
Variable CHAR_BIT : Z.

(** Unsigned arithmetic wraps around modulo 2 ^ size_bits. *)
Definition wrap (z : Z) : Z := z mod 2 ^ size_bits.

(** mirror.hh:65-66:
    ((L / 2) + (R / 2) + ((1 + (L % 2) + (R % 2)) / 2)) *)
Definition median (L R : Z) : Z :=
  wrap (wrap (L / 2 + R / 2) + wrap (wrap (1 + L mod 2) + R mod 2) / 2).

(** The same expression over the unbounded integers. *)
Definition median_exact (L R : Z) : Z :=
  L / 2 + R / 2 + (1 + L mod 2 + R mod 2) / 2.

(** mirror.hh:69-81.  [bisect<T, L, M, R>] depends on [T] through
    [is_constructible<T, M>] alone, so the test is a parameter.  Each unit
    of [fuel] pays for one instantiation of the template. *)
Fixpoint bisect (fuel : nat) (test : Z -> bool) (L M R : Z) : option Z :=
  match fuel with
  | O => None
  | S fuel' =>
      if L =? R then Some L
      else if test M
           then bisect fuel' test M (median M R) R
           else bisect fuel' test L (median L (wrap (M - 1))) (wrap (M - 1))
  end.

(** Template arguments of the instantiation that [bisect<T, L, M, R>]
    calls when [L <> R]. *)
Definition bisect_next (test : Z -> bool) (a : Z * Z * Z) : Z * Z * Z :=
  let '(L, M, R) := a in
  if test M then (M, median M R, R)
  else (L, median L (wrap (M - 1)), wrap (M - 1)).

(** mirror.hh:84-95.  The static_assert rejects a bit size that wrapped
    around. There are at most [bit_size + 1] instantiations of [bisect]. *)
Definition bit_size (T : class_decl) : Z :=
  wrap (Z.pos (sizeof T) * CHAR_BIT).

(** The product sizeof(T) * CHAR_BIT is a value of std::size_t. *)
Definition bit_size_representable (T : class_decl) : Prop :=
  Z.pos (sizeof T) * CHAR_BIT < 2 ^ size_bits.

Definition count_data_members (T : class_decl) : option Z :=
  if bit_size T / Z.pos (sizeof T) =? wrap CHAR_BIT
  then bisect (S (Z.to_nat (bit_size T))) (is_constructible T)
              0 (median 0 (bit_size T)) (bit_size T)
  else None.

(** mirror.hh:99-100: the variable template is constrained by the
    concept. *)
Definition data_member_count (T : class_decl) : option Z :=
  if reflexible T then count_data_members T else None.

(** ** Objects, references and the tuple of references *)

(** An object of class type lives at an address; the lvalue that denotes
    its [i]-th non-static data member (declaration order, from 0) is
    given by that address and [i].  Two references alias the same storage
    when they are equal. *)
Abbreviation address := N (only parsing).
Abbreviation reference := (designation * N * nat)%type (only parsing).

Definition member_of (x : address) (i : nat) : reference :=
  (OwnMember, x, i).

(** The object that member [i] of [x], of reference type, is bound to: it
    is not part of [x], and nothing is known of where it is. *)
Definition referee_of (x : address) (i : nat) : reference :=
  (Referee, x, i).

(** The lvalue that [get<i>(x)] returns for a tuple-like [x]. *)
Definition tuple_element (x : address) (i : nat) : reference :=
  (TupleElement, x, i).

(** What the name of member [i] of [x] denotes. *)
Definition lvalue_of (x : address) (i : nat) (m : member) : reference :=
  if is_reference m then referee_of x i else member_of x i.

Definition tuple_elements (x : address) (k : nat) : list reference :=
  tuple_element x <$> seq 0 k.

(** A name introduced by a structured binding declaration: the member it
    denotes, and whether that member is a bit-field. *)
Record binding : Type := Binding {
  denotes : reference;
  denotes_bit_field : bool
}.

(** [auto& [e00, ..., e<n-1>] = x;] with [n] names, [dcl.struct.bind].
    For a tuple-like class it is well-formed when [n] is
    std::tuple_size<T>::value, and name [i] denotes [get<i>(x)].
    Otherwise it is well-formed when the class can be decomposed member
    by member and [n] is the number of its non-static data members; name
    [i] then denotes member [i] of [x], or what it is bound to. *)
Definition structured_binding (T : class_decl) (n : nat) (x : address)
  : option (list binding) :=
  match tuple_like T with
  | Some k =>
      if bool_decide (n = k)
      then Some ((fun r => Binding r false) <$> tuple_elements x k)
      else None
  | None =>
      if decomposable T && bool_decide (n = length (data_members T))
      then Some (imap (fun i m => Binding (lvalue_of x i m) (is_bit_field m))
                      (data_members T))
      else None
  end.

(** [std::tie(e00, ..., e<n-1>)]: a tuple of lvalue references to its
    arguments.  Its parameters are non-const lvalue references, which do
    not bind to bit-fields ([dcl.init.ref]). *)
Definition tie (es : list binding) : option (list reference) :=
  if forallb (fun e => negb (denotes_bit_field e)) es
  then Some (denotes <$> es)
  else None.

(** Branch [n] of [reflect]: [std::tuple<>{}] for 0, and for [n >= 1] the
    specialization that meta/mirror.hh generates at
    (@generate_specializations@): bind [n] names, tie them. *)
Definition specialization (T : class_decl) (n : nat) (x : address)
  : option (list reference) :=
  match n with
  | O => Some []
  | S _ => structured_binding T n x ≫= tie
  end.

(** meta/mirror.hh:107-115, [reflect] with the ceiling (@limit@): the
    requires-clause, then the chain of [if constexpr] over 0, 1, ...,
    limit, of which the first branch whose literal equals the count is
    instantiated. *)
Definition reflect (limit : nat) (T : class_decl) (x : address)
  : option (list reference) :=
  match data_member_count T with
  | None => None
  | Some count =>
      if count <=? Z.of_nat limit
      then match List.find (fun n => count =? Z.of_nat n)
                           (seq 0 (S limit)) with
           | Some n => specialization T n x
           | None => None
           end
      else None
  end.

(** src/mirror.hh:109, requires(data_member_count<T> <= 127). *)
Definition reflect_header : class_decl -> address -> option (list reference) :=
  reflect 127.

(** src/mirror.cc:103-104, requires(data_member_count<T> <= 32).  The
    module declares the return type [auto] where the header has
    [decltype(auto)]; every branch returns a prvalue tuple, for which
    the two deduce the same type. *)
Definition reflect_module : class_decl -> address -> option (list reference) :=
  reflect 32.

(** The references to the members of [x], in declaration order.  Used in
    statements only. *)
Definition references_to_members (T : class_decl) (x : address)
  : list reference :=
  imap (lvalue_of x) (data_members T).

(** Memory: the value currently held by what each lvalue designates.
    Reading and writing through a reference act on the storage it
    denotes.  Member subobjects are disjoint; where a [Referee] or a
    [TupleElement] is stored is not known, so nothing here relates them
    to the members. *)
Variable value : Type.

Definition read (m : gmap reference value) (r : reference) : option value :=
  m !! r.

Definition write (r : reference) (v : value) (m : gmap reference value)
  : gmap reference value :=
  <[r := v]> m.

(** ** Aggregate initialisation from probes *)

(** An element that takes [c] clauses from a list: it leaves the rest;
    when it can take none, a clause offered to it is an error. *)
Definition take_clauses (c : nat) (cl : list universal)
  : option (list universal) :=
  match c, cl with
  | O, _ :: _ => None
  | _, _ => Some (drop c cl)
  end.

Lemma iter_init_drop (f : list universal -> option (list universal)) c n :
  (forall cl, f cl = Some (drop c cl)) ->
  forall cl,
    Nat.iter n (fun st => st ≫= f) (Some cl) = Some (drop (n * c) cl).
Proof using.
  intros Hf cl. induction n as [|n IH]; [reflexivity|].
  rewrite Nat.iter_succ, IH. cbn. rewrite Hf, drop_drop.
  do 2 f_equal. lia.
Qed.

Lemma iter_init_None (f : list universal -> option (list universal)) n :
  Nat.iter n (fun st => st ≫= f) None = None.
Proof using. induction n as [|n IH]; [reflexivity|]. now rewrite Nat.iter_succ, IH. Qed.

Lemma take_clauses_nil c : take_clauses c [] = Some [].
Proof using. destruct c; cbn; [reflexivity|]. reflexivity. Qed.

(** Every element takes as many clauses as it has scalar or class
    elements after flattening its arrays, or all that are left; an
    element with a part that no probe initialises takes none. *)
Lemma init_object_take t : forall cl,
  init_object t cl = take_clauses (clauses_of_object t) cl.
Proof using.
  induction t as [| |elem IH extent]; intros [|u rest]; try reflexivity.
  - cbn [init_object]. now rewrite take_clauses_nil.
  - cbn [init_object convertible clauses_of_object].
    destruct (clauses_of_object elem) as [|c] eqn:Hc.
    + rewrite Nat.mul_0_r. cbn [take_clauses].
      destruct (Pos2Nat.is_succ extent) as [n ->].
      rewrite Nat.iter_succ_r. cbn [mbind option_bind].
      rewrite IH. cbn [take_clauses]. apply iter_init_None.
    + rewrite (iter_init_drop _ (S c)) by (intros cl; now rewrite IH).
      destruct (Pos2Nat.is_succ extent) as [n ->]. reflexivity.
Qed.

Lemma init_member_take m cl :
  init_member m cl = take_clauses (clauses_of_member m) cl.
Proof using.
  destruct m as [t| | |[|]]; [apply init_object_take|..]; now destruct cl.
Qed.

Lemma init_elements_None es :
  foldl (fun st m => st ≫= init_member m) None es = None.
Proof using. induction es as [|m es IH]; [reflexivity|]. exact IH. Qed.

Lemma init_elements_nil es :
  foldl (fun st m => st ≫= init_member m) (Some []) es = Some [].
Proof using.
  induction es as [|m es IH]; [reflexivity|].
  cbn [foldl mbind option_bind]. now rewrite init_member_take, take_clauses_nil.
Qed.

(** A list of clauses initialises a list of elements exactly when it is
    no longer than the number of clauses they accept. *)
Lemma init_elements_iff es : forall cl,
  foldl (fun st m => st ≫= init_member m) (Some cl) es = Some [] <->
  (length cl <= clauses_of_elements es)%nat.
Proof using.
  induction es as [|m es IH]; intros cl.
  - cbn. split; [intros [= ->]; cbn; lia|].
    intros Hle. destruct cl; [reflexivity|cbn in Hle; lia].
  - cbn [foldl mbind option_bind clauses_of_elements].
    rewrite init_member_take.
    destruct (clauses_of_member m) as [|c].
    + destruct cl as [|u rest]; cbn [take_clauses].
      * cbn [drop]. rewrite init_elements_nil. cbn. split; [lia|reflexivity].
      * rewrite init_elements_None. cbn. split; [discriminate|lia].
    + cbn [take_clauses]. rewrite IH, length_drop. lia.
Qed.

Lemma aggregate_initialization_iff T cl :
  aggregate_initialization T cl = true <->
  (length cl <= clauses_accepted T)%nat.
Proof using.
  unfold aggregate_initialization, clauses_accepted.
  rewrite <- init_elements_iff.
  destruct (foldl _ _ _) as [[|u rest]|]; split; intros H;
    (reflexivity || discriminate).
Qed.

Lemma is_constructible_iff T k :
  reflexible T = true ->
  (is_constructible T k = true <-> k <= Z.of_nat (clauses_accepted T)).
Proof using.
  intros Hr. unfold is_constructible, constructible_from, list_initialization.
  rewrite Hr, aggregate_initialization_iff, length_map, length_seq. lia.
Qed.

Lemma is_constructible_false T k :
  reflexible T = true ->
  Z.of_nat (clauses_accepted T) < k -> is_constructible T k = false.
Proof using.
  intros Hr Hk. destruct (is_constructible T k) eqn:E; [|reflexivity].
  apply is_constructible_iff in E; [lia|exact Hr].
Qed.

(** A struct without base classes each of whose members takes one clause
    accepts as many clauses as it has members. *)
Lemma clauses_one_each T :
  key T = Struct -> bases T = [] -> one_clause_each T = true ->
  clauses_accepted T = length (members T).
Proof using.
  unfold one_clause_each, clauses_accepted, elements.
  intros -> ->. cbn [map app].
  induction (members T) as [|m ms IH]; cbn; [reflexivity|].
  intros [Hm%Nat.eqb_eq Hms]%andb_prop. rewrite Hm, (IH Hms). reflexivity.
Qed.

(** ** Destructuring *)

Lemma forallb_imap {A B} (p : B -> bool) (q : A -> bool) (l : list A) :
  forall f : nat -> A -> B,
    (forall i a, p (f i a) = q a) -> forallb p (imap f l) = forallb q l.
Proof using.
  induction l as [|a l IH]; intros f Hf; [reflexivity|].
  cbn. rewrite Hf. f_equal. apply IH. intros i b. apply Hf.
Qed.

Lemma decomposable_not_tuple_like T :
  decomposable T = true -> tuple_like T = None.
Proof using. unfold decomposable. now destruct (tuple_like T). Qed.

Lemma specialization_eq T n x :
  specialization T n x =
  match n with
  | O => Some []
  | S _ =>
      match tuple_like T with
      | Some k => if bool_decide (n = k) then Some (tuple_elements x k)
                  else None
      | None =>
          if decomposable T && bool_decide (n = length (data_members T))
          then if no_bit_field T then Some (references_to_members T x)
               else None
          else None
      end
  end.
Proof using.
  destruct n as [|n]; [reflexivity|].
  unfold specialization, structured_binding.
  destruct (tuple_like T) as [k|].
  - destruct (bool_decide (S n = k)); [|reflexivity].
    cbn [mbind option_bind]. unfold tie.
    assert (Hall : forall l : list reference,
              forallb (fun e => negb (denotes_bit_field e))
                      ((fun r => Binding r false) <$> l) = true)
      by (induction l; cbn; auto).
    rewrite Hall. f_equal. rewrite <- list_fmap_compose.
    apply list_fmap_id.
  - destruct (decomposable T && bool_decide (S n = length (data_members T)));
      [|reflexivity].
    cbn [mbind option_bind]. unfold tie, no_bit_field.
    rewrite (forallb_imap _ (fun m => negb (is_bit_field m))) by reflexivity.
    destruct (forallb _ (data_members T)); [|reflexivity].
    now rewrite fmap_imap.
Qed.

Lemma references_to_members_lookup_gen T x i :
  references_to_members T x !! i = lvalue_of x i <$> data_members T !! i.
Proof using. unfold references_to_members. apply list_lookup_imap. Qed.

Lemma not_reference_lookup T i m :
  no_reference_member T = true -> data_members T !! i = Some m ->
  is_reference m = false.
Proof using.
  unfold no_reference_member. intros Hall Hm.
  rewrite forallb_forall in Hall.
  apply negb_true_iff, Hall, list_elem_of_In, list_elem_of_lookup. eauto.
Qed.

Lemma references_to_members_lookup T x i :
  no_reference_member T = true -> (i < length (data_members T))%nat ->
  references_to_members T x !! i = Some (member_of x i).
Proof using.
  intros Href Hi. rewrite references_to_members_lookup_gen.
  destruct (lookup_lt_is_Some_2 (data_members T) i Hi) as [m Hm].
  rewrite Hm. cbn. unfold lvalue_of.
  now rewrite (not_reference_lookup T i m Href Hm).
Qed.

Lemma references_to_members_length T x :
  length (references_to_members T x) = length (data_members T).
Proof using. apply length_imap. Qed.

(** The chain of [if constexpr] reaches the branch of the count. *)
Lemma find_branch count len : forall a,
  Z.of_nat a <= count < Z.of_nat (a + len) ->
  List.find (fun n => count =? Z.of_nat n) (seq a len) = Some (Z.to_nat count).
Proof using.
  induction len as [|len IH]; intros a Ha; [lia|].
  cbn. destruct (Z.eqb_spec count (Z.of_nat a)) as [->|Hne].
  - now rewrite Nat2Z.id.
  - apply IH. lia.
Qed.

(** ** Facts about size_t *)

(** std::size_t has at least 16 bits and a byte at least 8
    ([support.types], <climits>). *)
Hypothesis size_bits_min : 16 <= size_bits.
Hypothesis CHAR_BIT_min : 8 <= CHAR_BIT.

(** Linear arithmetic with the quotients and remainders of the goal
    replaced by their defining equations. *)
Ltac word_arith := Z.to_euclidean_division_equations; lia.

Lemma size_range : 65536 <= 2 ^ size_bits /\ exists h, 2 ^ size_bits = 2 * h.
Proof.
  split.
  - change 65536 with (2 ^ 16). apply Z.pow_le_mono_r; lia.
  - exists (2 ^ (size_bits - 1)).
    rewrite <- Z.pow_succ_r by lia. f_equal. lia.
Qed.

Lemma wrap_small z : 0 <= z < 2 ^ size_bits -> wrap z = z.
Proof. intros Hz. unfold wrap. now apply Z.mod_small. Qed.

Lemma median_exact_ceiling L R :
  L + R <= 2 * median_exact L R <= L + R + 1.
Proof. unfold median_exact. Z.to_euclidean_division_equations. lia. Qed.

Lemma median_no_wrap L R :
  0 <= L < 2 ^ size_bits -> 0 <= R < 2 ^ size_bits ->
  median L R = median_exact L R.
Proof.
  intros HL HR. destruct size_range as [Hge [h Hh]].
  unfold median, median_exact.
  assert (H1 : wrap (1 + L mod 2) = 1 + L mod 2)
    by (apply wrap_small; word_arith).
  rewrite H1.
  assert (H2 : wrap (1 + L mod 2 + R mod 2) = 1 + L mod 2 + R mod 2)
    by (apply wrap_small; word_arith).
  rewrite H2.
  assert (H3 : wrap (L / 2 + R / 2) = L / 2 + R / 2)
    by (apply wrap_small; word_arith).
  rewrite H3.
  apply wrap_small. word_arith.
Qed.

Lemma median_between L R :
  0 <= L -> L < R -> R < 2 ^ size_bits ->
  L < median L R <= R.
Proof.
  intros HL HLR HR. rewrite median_no_wrap by lia.
  pose proof (median_exact_ceiling L R). lia.
Qed.

(** ** The search *)

Lemma bisect_next_unfold fuel test L M R :
  bisect (S fuel) test L M R =
  if L =? R then Some L
  else let '(L', M', R') := bisect_next test (L, M, R) in
       bisect fuel test L' M' R'.
Proof. simpl. destruct (L =? R); [reflexivity|]. now destruct (test M). Qed.

(** One instantiation of [bisect] on an interval with more than one point,
    entered at the median, calls an instantiation on a strictly shorter
    interval inside it, entered at its median. *)
Lemma bisect_next_shrinks test L R :
  0 <= L -> L < R -> R < 2 ^ size_bits ->
  exists L' R',
    bisect_next test (L, median L R, R) = (L', median L' R', R') /\
    L <= L' /\ L' <= R' /\ R' <= R /\ R' - L' < R - L.
Proof.
  intros HL HLR HR. pose proof (median_between L R HL HLR HR) as HM.
  unfold bisect_next. destruct (test (median L R)).
  - exists (median L R), R. repeat split; lia.
  - rewrite wrap_small by lia.
    exists L, (median L R - 1). repeat split; lia.
Qed.

(** Termination: [R - L + 1] instantiations are enough, whatever the
    test answers. *)
Lemma bisect_terminates test fuel : forall L R,
  0 <= L -> L <= R -> R < 2 ^ size_bits ->
  (Z.to_nat (R - L) < fuel)%nat ->
  exists k, bisect fuel test L (median L R) R = Some k /\ L <= k <= R.
Proof.
  induction fuel as [|fuel IH]; intros L R HL HLR HR Hfuel; [lia|].
  rewrite bisect_next_unfold.
  destruct (Z.eqb_spec L R) as [->|Hne].
  - exists R. split; [reflexivity|lia].
  - destruct (bisect_next_shrinks test L R) as (L' & R' & -> & ? & ? & ? & ?);
      [lia..|].
    destruct (IH L' R') as (k & Hk & ?); [lia..|].
    exists k. split; [exact Hk|lia].
Qed.

(** The result does not depend on the fuel once there is enough of it. *)
Lemma bisect_fuel_mono test fuel : forall fuel' L M R k,
  bisect fuel test L M R = Some k -> (fuel <= fuel')%nat ->
  bisect fuel' test L M R = Some k.
Proof.
  induction fuel as [|fuel IH]; intros fuel' L M R k Hk Hle; [discriminate|].
  destruct fuel' as [|fuel']; [lia|].
  simpl in *. destruct (L =? R); [exact Hk|].
  destruct (test M); apply IH; (exact Hk || lia).
Qed.

(** A result is only returned from an instantiation whose interval is a
    single point. *)
Lemma bisect_collapses test fuel : forall L M R k,
  bisect fuel test L M R = Some k ->
  exists n M', Nat.iter n (bisect_next test) (L, M, R) = (k, M', k).
Proof.
  induction fuel as [|fuel IH]; intros L M R k Hk; [discriminate|].
  rewrite bisect_next_unfold in Hk.
  destruct (Z.eqb_spec L R) as [->|Hne].
  - injection Hk as <-. now exists 0%nat, M.
  - destruct (bisect_next test (L, M, R)) as [[L' M1] R'] eqn:Hnext.
    destruct (IH _ _ _ _ Hk) as (n & M' & Hn).
    exists (S n), M'. now rewrite Nat.iter_succ_r, Hnext.
Qed.

(** Correctness on a monotone test: with the threshold [N] inside the
    interval, the search entered at the median returns [N]. *)
Lemma bisect_threshold test N fuel : forall L R,
  0 <= L -> L <= N <= R -> R < 2 ^ size_bits ->
  (forall k, L <= k <= N -> test k = true) ->
  (forall k, N < k <= R -> test k = false) ->
  (Z.to_nat (R - L) < fuel)%nat ->
  bisect fuel test L (median L R) R = Some N.
Proof.
  induction fuel as [|fuel IH]; intros L R HL HN HR Hlo Hhi Hfuel; [lia|].
  simpl. destruct (Z.eqb_spec L R) as [->|Hne]; [f_equal; lia|].
  pose proof (median_between L R) as HM. specialize (HM ltac:(lia) ltac:(lia) HR).
  destruct (test (median L R)) eqn:Htest.
  - assert (median L R <= N).
    { destruct (Z.le_gt_cases (median L R) N) as [?|Hgt]; [assumption|].
      rewrite Hhi in Htest by lia. discriminate. }
    apply IH; try lia; intros k Hk; [apply Hlo|apply Hhi]; lia.
  - assert (N < median L R).
    { destruct (Z.le_gt_cases (median L R) N) as [Hle|?]; [|assumption].
      rewrite Hlo in Htest by lia. discriminate. }
    rewrite wrap_small by lia.
    apply IH; try lia; intros k Hk; [apply Hlo|apply Hhi]; lia.
Qed.

(** ** The counter *)

Lemma bit_size_range T : 0 <= bit_size T < 2 ^ size_bits.
Proof.
  destruct size_range as [Hge _]. unfold bit_size, wrap.
  apply Z.mod_pos_bound. lia.
Qed.

(** The static_assert accepts every bit size that did not wrap around. *)
Lemma static_assert_holds T :
  bit_size_representable T ->
  bit_size T = Z.pos (sizeof T) * CHAR_BIT /\
  (bit_size T / Z.pos (sizeof T) =? wrap CHAR_BIT) = true.
Proof.
  unfold bit_size_representable. intros Hfit.
  assert (Hb : bit_size T = Z.pos (sizeof T) * CHAR_BIT).
  { unfold bit_size. apply wrap_small. lia. }
  split; [exact Hb|]. rewrite Hb, Z.mul_comm, Z.div_mul by lia.
  rewrite wrap_small by nia. apply Z.eqb_refl.
Qed.

(** Conversely it accepts no bit size that wrapped around: the guard is
    exact for every size that is itself a value of std::size_t. *)
Lemma static_assert_exact T :
  Z.pos (sizeof T) < 2 ^ size_bits -> CHAR_BIT < 2 ^ size_bits ->
  (bit_size T / Z.pos (sizeof T) =? wrap CHAR_BIT) = true ->
  bit_size_representable T.
Proof.
  unfold bit_size_representable, bit_size, wrap.
  intros Hs Hc Heq%Z.eqb_eq.
  rewrite (Z.mod_small CHAR_BIT) in Heq by lia.
  set (s := Z.pos (sizeof T)) in *. set (m := 2 ^ size_bits) in *.
  assert (Hs1 : 1 <= s) by (subst s; lia).
  pose proof (Z.mod_pos_bound (s * CHAR_BIT) m ltac:(lia)) as Hb.
  pose proof (Z.div_mod (s * CHAR_BIT) m ltac:(lia)) as Hdm.
  set (b := (s * CHAR_BIT) mod m) in *. set (q := (s * CHAR_BIT) / m) in *.
  assert (Hq : 0 <= q) by (subst q; apply Z.div_pos; nia).
  assert (Hge : s * CHAR_BIT <= b).
  { rewrite <- Heq. apply Z.mul_div_le. lia. }
  assert (Hm : 65536 <= m) by apply size_range.
  nia.
Qed.

(** The search always ends, inside the interval it was given. *)
Lemma count_data_members_range T c :
  count_data_members T = Some c -> 0 <= c <= bit_size T.
Proof.
  unfold count_data_members. destruct (_ =? _); [|discriminate].
  pose proof (bit_size_range T) as HB.
  destruct (bisect_terminates (is_constructible T)
              (S (Z.to_nat (bit_size T))) 0 (bit_size T))
    as (k & -> & Hk); [lia..|].
  now intros [= <-].
Qed.

(** What the counter computes: the number of initializer clauses the type
    accepts, capped by the bit size. *)
Lemma count_data_members_eq T :
  reflexible T = true -> bit_size_representable T ->
  count_data_members T =
  Some (Z.min (Z.of_nat (clauses_accepted T)) (bit_size T)).
Proof.
  intros Hr Hfit. destruct (static_assert_holds T Hfit) as [Hb Hassert].
  unfold count_data_members. rewrite Hassert.
  pose proof (bit_size_range T) as HB.
  apply bisect_threshold; try lia.
  - intros k Hk. apply is_constructible_iff; [exact Hr|lia].
  - intros k Hk. apply is_constructible_false; [exact Hr|lia].
Qed.

Lemma data_member_count_range T c :
  data_member_count T = Some c -> 0 <= c <= bit_size T.
Proof.
  unfold data_member_count. destruct (reflexible T); [|discriminate].
  apply count_data_members_range.
Qed.

(** [reflect] on a type whose count is known. *)
Lemma reflect_eq limit T x count :
  data_member_count T = Some count ->
  reflect limit T x =
  if count <=? Z.of_nat limit
  then specialization T (Z.to_nat count) x
  else None.
Proof.
  intros Hc. pose proof (data_member_count_range T count Hc) as Hr.
  unfold reflect. rewrite Hc.
  destruct (Z.leb_spec count (Z.of_nat limit)); [|reflexivity].
  rewrite find_branch by lia. reflexivity.
Qed.

(** For a struct without base classes each of whose members takes one
    clause (no array of more than one element, no member that a probe
    cannot initialise), and with at most as many members as the type has
    bits, the count is the number of members. *)
Lemma data_member_count_without_arrays T :
  reflexible T = true -> bit_size_representable T ->
  key T = Struct -> bases T = [] -> one_clause_each T = true ->
  Z.of_nat (length (members T)) <= bit_size T ->
  data_member_count T = Some (Z.of_nat (length (members T))).
Proof.
  intros Hr Hfit Hkey Hbases Hone Hle. unfold data_member_count. rewrite Hr.
  rewrite count_data_members_eq by assumption.
  rewrite (clauses_one_each T Hkey Hbases Hone). f_equal. lia.
Qed.

(** Acceptance of [reflect] on a type whose count is known. *)
Lemma reflect_is_Some limit T x count :
  data_member_count T = Some count -> decomposable T = true ->
  count = Z.of_nat (length (data_members T)) -> no_bit_field T = true ->
  count <= Z.of_nat limit ->
  reflect limit T x = Some (references_to_members T x).
Proof.
  intros Hc Hd Hn Hbf Hle. rewrite (reflect_eq limit T x count Hc).
  destruct (Z.leb_spec count (Z.of_nat limit)); [|lia].
  rewrite specialization_eq, Hn, Nat2Z.id.
  destruct (length (data_members T)) as [|n] eqn:Hlen.
  - unfold references_to_members. now rewrite (nil_length_inv _ Hlen).
  - rewrite (decomposable_not_tuple_like T Hd), Hd,
      bool_decide_eq_true_2 by reflexivity. cbn. now rewrite Hbf.
Qed.

Lemma reflect_above_limit limit T x count :
  data_member_count T = Some count -> Z.of_nat limit < count ->
  reflect limit T x = None.
Proof.
  intros Hc Hlt. rewrite (reflect_eq limit T x count Hc).
  destruct (Z.leb_spec count (Z.of_nat limit)); [lia|reflexivity].
Qed.

Lemma references_to_members_inv T x i r :
  no_reference_member T = true ->
  references_to_members T x !! i = Some r ->
  (i < length (data_members T))%nat /\ r = member_of x i.
Proof using.
  intros Href Hr. assert (Hi : (i < length (data_members T))%nat).
  { rewrite <- (references_to_members_length T x).
    apply lookup_lt_is_Some_1. now exists r. }
  rewrite references_to_members_lookup in Hr by assumption.
  now injection Hr as <-.
Qed.


Lemma read_write_same (m : gmap reference value) r v :
  read (write r v m) r = Some v.
Proof using. apply lookup_insert_eq. Qed.


(** ** The claims *)

(** C10. For all values L and R of std::size_t, median<L, R> is the
    ceiling of (L + R) / 2 and no step of its computation wraps around,
    also when L + R is not representable; so for L < R it lies in (L, R],
    every instantiation bisect<T, L, median<L, R>, R> with L < R calls one
    on a strictly shorter interval inside [L, R], again entered at its
    median, and on every interval [L, R] the recursion ends, after at
    most R - L + 1 instantiations, with a value of [L, R]. *)
Theorem C10_median_ceiling_bisect_terminates (L R : Z) :
  0 <= L < 2 ^ size_bits -> 0 <= R < 2 ^ size_bits ->
  (median L R = median_exact L R /\
   L / 2 + R / 2 < 2 ^ size_bits /\
   1 + L mod 2 + R mod 2 < 2 ^ size_bits /\
   median_exact L R < 2 ^ size_bits) /\
  (median L R = (L + R + 1) / 2 /\
   L + R <= 2 * median L R <= L + R + 1) /\
  (L < R -> L < median L R <= R) /\
  (L < R -> forall test, exists L' R',
      bisect_next test (L, median L R, R) = (L', median L' R', R') /\
      L <= L' /\ L' <= R' /\ R' <= R /\ R' - L' < R - L) /\
  (L <= R -> forall test fuel, (Z.to_nat (R - L) < fuel)%nat ->
      exists k, bisect fuel test L (median L R) R = Some k /\ L <= k <= R).
Proof.
  intros HL HR. destruct size_range as [Hge [h Hh]].
  pose proof (median_no_wrap L R HL HR) as Hm.
  pose proof (median_exact_ceiling L R) as Hc.
  repeat split.
  - exact Hm.
  - word_arith.
  - word_arith.
  - unfold median_exact. word_arith.
  - rewrite Hm. unfold median_exact. word_arith.
  - lia.
  - lia.
  - apply median_between; lia.
  - apply median_between; lia.
  - intros HLR test. apply bisect_next_shrinks; lia.
  - intros HLR test fuel Hfuel. apply bisect_terminates; lia.
Qed.

(** C4. For every test (is_constructible<T, .> for any type T) and bound
    B such that the test is true for all k <= N and false for all k in
    (N, B], for some N in [0, B] -- so that it is true at 0 --, the search
    bisect<T, 0, median<0, B>, B> ends, within B + 1 instantiations, in an
    instantiation whose interval is the single point N, and returns N,
    the largest k of [0, B] at which the test succeeds. *)
Theorem C4_bisect_returns_largest (test : Z -> bool) (N B : Z) :
  0 <= N <= B -> B < 2 ^ size_bits ->
  (forall k, 0 <= k <= N -> test k = true) ->
  (forall k, N < k <= B -> test k = false) ->
  (forall fuel, (Z.to_nat B < fuel)%nat ->
     bisect fuel test 0 (median 0 B) B = Some N) /\
  (exists n M,
     Nat.iter n (bisect_next test) (0, median 0 B, B) = (N, M, N)) /\
  test 0 = true /\ test N = true /\
  (forall k, 0 <= k <= B -> test k = true -> k <= N).
Proof.
  intros HN HB Hlo Hhi.
  assert (Hrun : forall fuel, (Z.to_nat B < fuel)%nat ->
            bisect fuel test 0 (median 0 B) B = Some N).
  { intros fuel Hfuel. apply bisect_threshold; try lia; assumption. }
  split; [exact Hrun|]. split; [|split; [|split]].
  - apply (bisect_collapses test (S (Z.to_nat B))). apply Hrun. lia.
  - apply Hlo. lia.
  - apply Hlo. lia.
  - intros k Hk Htest. destruct (Z.le_gt_cases k N) as [?|Hgt]; [assumption|].
    rewrite Hhi in Htest by lia. discriminate.
Qed.

(** C5. reflexible<T> holds if and only if T is an aggregate, is
    default-initializable, and is copy-constructible or
    move-constructible, in the header and in the module alike; so a type
    with a user-declared (or inherited) constructor is rejected whatever
    its members are. *)
Theorem C5_reflexible_iff (T : class_decl) :
  (reflexible T = true <->
   is_aggregate T = true /\ default_initializable T = true /\
   (copy_constructible T = true \/ move_constructible T = true)) /\
  reflexible_module T = reflexible T /\
  (user_declared_ctor T = true ->
   is_aggregate T = false /\ reflexible T = false /\
   forall ms, reflexible
     (Class true (nonpublic_member T) (virtual_function T) ms
            (default_initializable T) (copy_constructible T)
            (move_constructible T) (sizeof T)) = false).
Proof using.
  unfold reflexible, reflexible_module, is_aggregate.
  split; [|split].
  - rewrite !andb_true_iff, orb_true_iff. tauto.
  - reflexivity.
  - intros ->. cbn. auto.
Qed.

(** C3 (amended). For every reflexible T and every k in [0, upper bound],
    is_constructible<T, k> succeeds if and only if k is at most the
    number of initializer clauses T accepts: those of its elements (the
    base classes, then the members; of a union the first member only),
    in order up to the first element that no probe can initialise, an
    array taking one clause for each element of the flattened array and
    every other element one.  For a struct without base classes each of
    whose members takes exactly one clause, that number is the member
    count N, and the test succeeds if and only if k <= N. *)
Theorem C3_is_constructible_iff (T : class_decl) (k : Z) :
  reflexible T = true -> 0 <= k <= bit_size T ->
  (is_constructible T k = true <-> k <= Z.of_nat (clauses_accepted T)) /\
  (key T = Struct -> bases T = [] -> one_clause_each T = true ->
   clauses_accepted T = length (members T) /\
   (is_constructible T k = true <-> k <= Z.of_nat (length (members T)))).
Proof using.
  intros Hr _. split; [now apply is_constructible_iff|].
  intros Hkey Hbases Hone. rewrite <- (clauses_one_each T Hkey Hbases Hone).
  split; [reflexivity|now apply is_constructible_iff].
Qed.

(** C9 (amended). For every reflexible T without base classes and without
    non-static data members (whose bit size the static_assert of
    count_data_members accepts), data_member_count<T> is 0 and reflect
    returns the empty tuple for every instance, under either ceiling. *)
Theorem C9_empty_class (T : class_decl) (x : address) :
  reflexible T = true -> bases T = [] -> members T = [] ->
  bit_size_representable T ->
  data_member_count T = Some 0 /\
  reflect_header T x = Some [] /\ reflect_module T x = Some [] /\
  forall limit, reflect limit T x = Some [].
Proof.
  intros Hr Hbases Hms Hfit.
  assert (Hc : data_member_count T = Some 0).
  { unfold data_member_count. rewrite Hr, count_data_members_eq by assumption.
    pose proof (bit_size_range T). unfold clauses_accepted, elements.
    rewrite Hbases, Hms. destruct (key T); cbn; f_equal; lia. }
  assert (Hall : forall limit, reflect limit T x = Some []).
  { intros limit. rewrite (reflect_eq limit T x 0 Hc).
    destruct (Z.leb_spec 0 (Z.of_nat limit)); [reflexivity|lia]. }
  split; [exact Hc|]. split; [apply Hall|]. split; [apply Hall|exact Hall].
Qed.

(** C7 (amended). For a reflexible T that is not a union, whose
    non-static data members are accessible direct members of one class,
    none of them an anonymous union or a bit-field, and whose
    data_member_count equals their number, reflect(x) is accepted exactly
    when that count is at most the ceiling; for every reflexible T it is
    rejected, at compile time, when the count exceeds the ceiling.  The
    ceiling is 127 in the header and 32 in the module, and the two
    variants return the same tuple wherever the count is at most 32. *)
Theorem C7_reflect_ceiling (T : class_decl) (x : address) (count : Z) :
  data_member_count T = Some count ->
  (decomposable T = true ->
   count = Z.of_nat (length (data_members T)) -> no_bit_field T = true ->
   (forall limit, is_Some (reflect limit T x) <-> count <= Z.of_nat limit) /\
   (is_Some (reflect_header T x) <-> count <= 127) /\
   (is_Some (reflect_module T x) <-> count <= 32)) /\
  (forall limit, Z.of_nat limit < count -> reflect limit T x = None) /\
  (127 < count -> reflect_header T x = None) /\
  (32 < count -> reflect_module T x = None) /\
  (count <= 32 -> reflect_module T x = reflect_header T x).
Proof.
  intros Hc.
  assert (Hiff : decomposable T = true ->
                 count = Z.of_nat (length (data_members T)) ->
                 no_bit_field T = true -> forall limit,
                 is_Some (reflect limit T x) <-> count <= Z.of_nat limit).
  { intros Hd Hn Hbf limit. split.
    - intros [refs Hrefs]. destruct (Z.le_gt_cases count (Z.of_nat limit));
        [assumption|].
      rewrite (reflect_above_limit limit T x count) in Hrefs by (assumption || lia).
      discriminate.
    - intros Hle. eexists. now apply (reflect_is_Some limit T x count). }
  split; [|split; [|split; [|split]]].
  - intros Hd Hn Hbf. split; [exact (Hiff Hd Hn Hbf)|].
    split; [apply (Hiff Hd Hn Hbf 127%nat)|apply (Hiff Hd Hn Hbf 32%nat)].
  - intros limit. apply reflect_above_limit. exact Hc.
  - intros Hgt. apply (reflect_above_limit 127 T x count); [exact Hc|lia].
  - intros Hgt. apply (reflect_above_limit 32 T x count); [exact Hc|lia].
  - intros Hle. unfold reflect_module, reflect_header.
    rewrite !(reflect_eq _ T x count Hc).
    destruct (Z.leb_spec count (Z.of_nat 32)); [|lia].
    destruct (Z.leb_spec count (Z.of_nat 127)); [reflexivity|lia].
Qed.

(** C2 (amended). For every reflexible T that is not a union, whose
    non-static data members are accessible direct members of one class,
    none of them an anonymous union, a bit-field or a reference, and
    whose data_member_count N is at most the ceiling and equals their
    number, and for every instance x, reflect(x) returns a sequence of
    exactly N references in which element i, for every i in [0, N),
    refers to the storage of the i-th declared member of x: distinct
    elements refer to distinct members, and what is read through element
    i is what member i holds at that time, not a copy made when the tuple
    was built. *)
Theorem C2_reflect_references_members
    (limit : nat) (T : class_decl) (x : address) (count : Z) :
  reflexible T = true -> data_member_count T = Some count ->
  count <= Z.of_nat limit ->
  decomposable T = true -> count = Z.of_nat (length (data_members T)) ->
  no_bit_field T = true -> no_reference_member T = true ->
  exists refs,
    reflect limit T x = Some refs /\
    Z.of_nat (length refs) = count /\
    (forall i, 0 <= Z.of_nat i < count -> refs !! i = Some (member_of x i)) /\
    (forall i j r, refs !! i = Some r -> refs !! j = Some r -> i = j) /\
    (forall (m : gmap reference value) i r, refs !! i = Some r ->
       read m r = read m (member_of x i) /\
       forall v, read (write (member_of x i) v m) r = Some v).
Proof.
  intros _ Hc Hle Hd Hn Hbf Href. exists (references_to_members T x).
  split; [now apply (reflect_is_Some limit T x count)|].
  split; [now rewrite references_to_members_length|].
  split; [|split].
  - intros i Hi. apply references_to_members_lookup; [exact Href|lia].
  - intros i j r Hi Hj.
    apply (references_to_members_inv T x i r Href) in Hi as [_ ->].
    apply (references_to_members_inv T x j _ Href) in Hj as [_ Heq].
    now injection Heq.
  - intros m i r Hi.
    apply (references_to_members_inv T x i r Href) in Hi as [_ ->].
    split; [reflexivity|]. intros v. apply read_write_same.
Qed.


(** ** Further properties of the search and of the counter *)

(** The static_assert holds for no bit size that wrapped around. *)
Lemma static_assert_only_representable T :
  CHAR_BIT < 2 ^ size_bits ->
  (bit_size T / Z.pos (sizeof T) =? wrap CHAR_BIT) = true ->
  bit_size_representable T.
Proof.
  unfold bit_size_representable. intros Hc Heq%Z.eqb_eq.
  rewrite (wrap_small CHAR_BIT) in Heq by lia.
  pose proof (bit_size_range T) as Hb.
  assert (Hge : Z.pos (sizeof T) * CHAR_BIT <= bit_size T).
  { rewrite <- Heq. apply Z.mul_div_le. lia. }
  lia.
Qed.

Lemma count_data_members_None T :
  CHAR_BIT < 2 ^ size_bits ->
  (count_data_members T = None <-> ~ bit_size_representable T).
Proof.
  intros Hc. split.
  - intros Hnone Hfit. destruct (static_assert_holds T Hfit) as [_ Hassert].
    unfold count_data_members in Hnone. rewrite Hassert in Hnone.
    pose proof (bit_size_range T) as HB.
    destruct (bisect_terminates (is_constructible T)
                (S (Z.to_nat (bit_size T))) 0 (bit_size T))
      as (k & Hk & _); [lia..|]. congruence.
  - intros Hwrap. unfold count_data_members.
    destruct (_ =? _) eqn:Hassert; [|reflexivity].
    destruct Hwrap. now apply static_assert_only_representable.
Qed.

(** An instantiation on an interval of more than one point calls one on
    an interval of at most half the length. *)
Lemma bisect_next_halves test L R :
  0 <= L -> L < R -> R < 2 ^ size_bits ->
  exists L' R',
    bisect_next test (L, median L R, R) = (L', median L' R', R') /\
    L <= L' /\ L' <= R' /\ R' <= R /\ 2 * (R' - L') <= R - L.
Proof.
  intros HL HLR HR. pose proof (median_between L R HL HLR HR) as HM.
  pose proof (median_no_wrap L R ltac:(lia) ltac:(lia)) as Hm.
  pose proof (median_exact_ceiling L R) as Hc. rewrite <- Hm in Hc.
  unfold bisect_next. destruct (test (median L R)).
  - exists (median L R), R. repeat split; lia.
  - rewrite wrap_small by lia.
    exists L, (median L R - 1). repeat split; lia.
Qed.

Lemma bisect_depth test fuel : forall L R,
  0 <= L -> L <= R -> R < 2 ^ size_bits ->
  (if L =? R then 1 else Z.log2 (R - L) + 2) <= Z.of_nat fuel ->
  exists k, bisect fuel test L (median L R) R = Some k /\ L <= k <= R.
Proof.
  induction fuel as [|fuel IH]; intros L R HL HLR HR Hfuel.
  - destruct (L =? R); [lia|]. pose proof (Z.log2_nonneg (R - L)). lia.
  - rewrite bisect_next_unfold.
    destruct (Z.eqb_spec L R) as [->|Hne].
    + exists R. split; [reflexivity|lia].
    + destruct (bisect_next_halves test L R) as (L' & R' & -> & ? & ? & ? & Hhalf);
        [lia..|].
      destruct (IH L' R') as (k & Hk & ?); [lia..| |].
      * pose proof (Z.log2_nonneg (R - L)).
        destruct (Z.eqb_spec L' R') as [_|Hne']; [lia|].
        assert (Hdouble : Z.log2 (2 * (R' - L')) = Z.succ (Z.log2 (R' - L')))
          by (apply Z.log2_double; lia).
        pose proof (Z.log2_le_mono (2 * (R' - L')) (R - L) Hhalf). lia.
      * exists k. split; [exact Hk|lia].
Qed.

Lemma clauses_of_initialisable ms :
  Forall (fun m => clauses_of_member m <> 0%nat) ms ->
  (length ms <= clauses_of_elements ms)%nat /\
  (clauses_of_elements ms = length ms <->
   Forall (fun m => clauses_of_member m = 1%nat) ms).
Proof.
  clear. induction 1 as [|m ms Hm Hms [IHle IHeq]]; cbn.
  - split; [lia|]. split; [constructor|reflexivity].
  - destruct (clauses_of_member m) as [|c] eqn:Hc; [congruence|].
    split; [lia|]. rewrite Forall_cons, <- IHeq. lia.
Qed.

Lemma data_member_count_Some_iff T count :
  CHAR_BIT < 2 ^ size_bits ->
  (data_member_count T = Some count <->
   reflexible T = true /\ bit_size_representable T /\
   count = Z.min (Z.of_nat (clauses_accepted T)) (bit_size T)).
Proof.
  intros Hc. unfold data_member_count. split.
  - destruct (reflexible T) eqn:Hr; [|discriminate]. intros Hcount.
    assert (Hfit : bit_size_representable T).
    { destruct (Z_lt_ge_dec (Z.pos (sizeof T) * CHAR_BIT) (2 ^ size_bits))
        as [Hfit|Hwrap]; [exact Hfit|].
      assert (Hnone : count_data_members T = None).
      { apply count_data_members_None; [exact Hc|].
        unfold bit_size_representable. lia. }
      congruence. }
    rewrite count_data_members_eq in Hcount by assumption.
    injection Hcount as <-. auto.
  - intros (Hr & Hfit & ->). rewrite Hr. now apply count_data_members_eq.
Qed.

(** X1. data_member_count<T> has a value exactly for the reflexible
    types whose bit size sizeof(T) * CHAR_BIT is representable, and the
    value is the number of initializer clauses the type accepts (those of
    its base classes and members in order, up to the first that no probe
    can initialise, arrays flattened; of a union those of the first
    member), capped by the bit size; it is never negative and never above
    the bit size. *)
Theorem X1_data_member_count_value (T : class_decl) (count : Z) :
  CHAR_BIT < 2 ^ size_bits ->
  (data_member_count T = Some count <->
   reflexible T = true /\ bit_size_representable T /\
   count = Z.min (Z.of_nat (clauses_accepted T)) (bit_size T)) /\
  (data_member_count T = Some count -> 0 <= count <= bit_size T).
Proof.
  intros Hc. split; [now apply data_member_count_Some_iff|].
  apply data_member_count_range.
Qed.

(** X2. The static_assert of count_data_members is an exact guard: the
    counter is rejected if and only if sizeof(T) * CHAR_BIT wrapped
    around in std::size_t, and then data_member_count<T> and reflect are
    rejected too, under every ceiling. *)
Theorem X2_static_assert_guard (T : class_decl) :
  CHAR_BIT < 2 ^ size_bits ->
  (count_data_members T = None <-> ~ bit_size_representable T) /\
  (~ bit_size_representable T ->
   data_member_count T = None /\
   forall limit x, reflect limit T x = None).
Proof.
  intros Hc. split; [now apply count_data_members_None|].
  intros Hwrap.
  assert (Hnone : data_member_count T = None).
  { unfold data_member_count. destruct (reflexible T); [|reflexivity].
    now apply count_data_members_None. }
  split; [exact Hnone|]. intros limit x. unfold reflect. now rewrite Hnone.
Qed.

(** X3. The search is logarithmic: on every interval [L, R] entered at
    its median, log2(R - L) + 2 instantiations of bisect give the result,
    whatever the test answers; the counter needs at most
    log2(sizeof(T) * CHAR_BIT) + 2 of them. *)
Theorem X3_bisect_logarithmic (test : Z -> bool) (L R : Z) (fuel : nat) :
  0 <= L -> L <= R -> R < 2 ^ size_bits ->
  Z.log2 (R - L) + 2 <= Z.of_nat fuel ->
  (exists k, bisect fuel test L (median L R) R = Some k /\ L <= k <= R) /\
  (forall T, bit_size T = R -> L = 0 -> bit_size_representable T ->
     bisect fuel (is_constructible T) 0 (median 0 R) R =
     count_data_members T).
Proof.
  intros HL HLR HR Hfuel.
  assert (Hd : forall t, exists k,
             bisect fuel t L (median L R) R = Some k /\ L <= k <= R).
  { intros t. apply bisect_depth; try lia.
    pose proof (Z.log2_nonneg (R - L)). destruct (L =? R); lia. }
  split; [apply Hd|]. intros T HB -> Hfit.
  destruct (Hd (is_constructible T)) as (k & Hk & _). rewrite Hk.
  destruct (static_assert_holds T Hfit) as [_ Hassert].
  unfold count_data_members. rewrite Hassert, HB.
  destruct (bisect_terminates (is_constructible T) (S (Z.to_nat R)) 0 R)
    as (k' & Hk' & _); [lia..|]. rewrite Hk'.
  pose proof (bisect_fuel_mono _ _ (fuel + S (Z.to_nat R)) _ _ _ _ Hk
                ltac:(lia)) as H1.
  pose proof (bisect_fuel_mono _ _ (fuel + S (Z.to_nat R)) _ _ _ _ Hk'
                ltac:(lia)) as H2.
  congruence.
Qed.

(** X4. Without any assumption on the test, the value k that the search
    returns on [L, R] is a boundary of the test inside the interval: the
    test succeeds at k unless k = L, and fails at k + 1 unless k = R. *)
Theorem X4_bisect_boundary (test : Z -> bool) (fuel : nat) (L R k : Z) :
  0 <= L -> L <= R -> R < 2 ^ size_bits ->
  bisect fuel test L (median L R) R = Some k ->
  L <= k <= R /\ (k = L \/ test k = true) /\ (k = R \/ test (k + 1) = false).
Proof.
  revert L R k.
  induction fuel as [|fuel IH]; intros L R k HL HLR HR Hk; [discriminate|].
  simpl in Hk. destruct (Z.eqb_spec L R) as [->|Hne].
  - injection Hk as <-. repeat split; auto; lia.
  - pose proof (median_between L R HL ltac:(lia) HR) as HM.
    destruct (test (median L R)) eqn:Htest.
    + apply IH in Hk; [|lia..]. destruct Hk as (Hr & Hlo & Hhi).
      split; [lia|]. split; [|exact Hhi].
      right. destruct Hlo as [->|?]; assumption.
    + rewrite wrap_small in Hk by lia.
      apply IH in Hk; [|lia..]. destruct Hk as (Hr & Hlo & Hhi).
      split; [lia|]. split; [exact Hlo|].
      right. destruct Hhi as [->|?]; [|assumption].
      now replace (median L R - 1 + 1) with (median L R) by lia.
Qed.



(** X6. Raising the ceiling never changes what reflect returns for a type
    it already accepts: a tuple obtained under one ceiling is obtained
    under every larger one, so the header returns whatever the module
    returns. *)
Theorem X6_reflect_ceiling_monotone
    (limit limit' : nat) (T : class_decl) (x : address)
    (refs : list reference) :
  (limit <= limit')%nat -> reflect limit T x = Some refs ->
  reflect limit' T x = Some refs /\
  (reflect_module T x = Some refs -> reflect_header T x = Some refs).
Proof.
  assert (Hmono : forall l l' : nat, (l <= l')%nat ->
            reflect l T x = Some refs -> reflect l' T x = Some refs).
  { intros l l' Hle Hrefs.
    destruct (data_member_count T) as [count|] eqn:Hcount;
      [|unfold reflect in Hrefs; rewrite Hcount in Hrefs; discriminate].
    rewrite (reflect_eq l T x count Hcount) in Hrefs.
    rewrite (reflect_eq l' T x count Hcount).
    destruct (Z.leb_spec count (Z.of_nat l)); [|discriminate].
    destruct (Z.leb_spec count (Z.of_nat l')); [exact Hrefs|lia]. }
  intros Hle Hrefs. split; [now apply (Hmono limit limit')|].
  apply (Hmono 32%nat 127%nat). lia.
Qed.

(** X7. For a reflexible struct without base classes, all of whose
    members a probe can initialise, with a representable bit size and no
    more clauses accepted than it has bits, the counter never returns
    less than the number of declared members, and it returns exactly that
    number if and only if every member accepts exactly one clause, that
    is, no member is an array of more than one element after
    flattening. *)
Theorem X7_count_exact_iff (T : class_decl) :
  reflexible T = true -> bit_size_representable T ->
  Z.of_nat (clauses_accepted T) <= bit_size T ->
  key T = Struct -> bases T = [] ->
  Forall (fun m => clauses_of_member m <> 0%nat) (members T) ->
  (data_member_count T = Some (Z.of_nat (length (members T))) <->
   Forall (fun m => clauses_of_member m = 1%nat) (members T)) /\
  (exists count, data_member_count T = Some count /\
                 Z.of_nat (length (members T)) <= count).
Proof.
  intros Hr Hfit Hle Hkey Hbases Hinit.
  assert (Hcount : data_member_count T = Some (Z.of_nat (clauses_accepted T))).
  { unfold data_member_count. rewrite Hr, count_data_members_eq by assumption.
    f_equal. lia. }
  assert (Hcl : clauses_accepted T = clauses_of_elements (members T)).
  { unfold clauses_accepted, elements. now rewrite Hkey, Hbases. }
  destruct (clauses_of_initialisable (members T) Hinit) as [Hge Heq].
  rewrite Hcount, Hcl. split.
  - rewrite <- Heq. split; [intros [= H]; lia|intros ->; reflexivity].
  - eexists. split; [reflexivity|]. lia.
Qed.

(** X8. constructible_from depends on its indices through their number
    only, and the test is monotone for every reflexible type, unions,
    base classes, arrays, bit-fields and members that no probe
    initialises included: it succeeds at 0, and where it succeeds at k it
    succeeds at every j below k. *)
Theorem X8_is_constructible_monotone
    (T : class_decl) (Indices : list nat) (j k : Z) :
  reflexible T = true -> j <= k -> is_constructible T k = true ->
  is_constructible T j = true /\ is_constructible T 0 = true /\
  constructible_from T Indices =
    is_constructible T (Z.of_nat (length Indices)).
Proof using.
  clear. intros Hr Hjk Hk. apply (is_constructible_iff T k Hr) in Hk.
  split; [apply is_constructible_iff; [exact Hr|lia]|].
  split; [apply is_constructible_iff; [exact Hr|lia]|].
  unfold is_constructible, constructible_from, list_initialization.
  rewrite Hr. apply eq_true_iff_eq.
  rewrite !aggregate_initialization_iff, !length_map, length_seq. lia.
Qed.

End Platform.

Arguments read {value} m r.
Arguments write {value} r v m.

(** ** Evaluation on a platform with a 64-bit std::size_t and 8-bit
    bytes *)

(** At the largest value the median is still exact, where the textbook
    (L + R + 1) / 2 wraps around. *)
Example median_at_size_max :
  median 64 (2 ^ 64 - 1) (2 ^ 64 - 1) = 2 ^ 64 - 1 /\
  wrap 64 (wrap 64 (2 ^ 64 - 1 + (2 ^ 64 - 1) + 1) / 2) = 2 ^ 63 - 1.
Proof. split; vm_compute; reflexivity. Qed.

(** The instantiations for struct { int a; int b; int c; }: the interval
    [0, 96] is entered at 48 and collapses to 3. *)
Example three_ints_search :
  bit_size 64 8 three_ints = 96 /\
  median 64 0 96 = 48 /\
  Nat.iter 6 (bisect_next 64 (is_constructible three_ints)) (0, 48, 96)
    = (3, 3, 3) /\
  data_member_count 64 8 three_ints = Some 3.
Proof. repeat split; vm_compute; reflexivity. Qed.

(** A constructor makes the type ineligible: no count, no tuple. *)
Example constructor_rejected :
  reflexible with_constructor = false /\
  data_member_count 64 8 with_constructor = None /\
  reflect_header 64 8 with_constructor 0%N = None.
Proof. repeat split; vm_compute; reflexivity. Qed.

(** The two ceilings: 32 members pass both variants, 33 only the header,
    127 the header, 128 neither. *)
Example ceilings :
  is_Some (reflect_module 64 8 (ints 32) 0%N) /\
  reflect_module 64 8 (ints 33) 0%N = None /\
  is_Some (reflect_header 64 8 (ints 33) 0%N) /\
  is_Some (reflect_header 64 8 (ints 127) 0%N) /\
  data_member_count 64 8 (ints 128) = Some 128 /\
  reflect_header 64 8 (ints 128) 0%N = None.
Proof.
  repeat split; vm_compute; first [reflexivity | eexists; reflexivity].
Qed.

(** ** The theorems at concrete types *)

(** The interval [3, 8]: median 6, and the search ends inside it. *)
Lemma C10_witness :
  (16 <= 64 /\ 0 <= 3 < 2 ^ 64 /\ 0 <= 8 < 2 ^ 64) /\
  median 64 3 8 = (3 + 8 + 1) / 2 /\
  exists k,
    bisect 64 6 (is_constructible three_ints) 3 (median 64 3 8) 8 = Some k /\
    3 <= k <= 8.
Proof.
  assert (Hw : 16 <= 64) by lia.
  assert (HL : 0 <= 3 < 2 ^ 64) by lia.
  assert (HR : 0 <= 8 < 2 ^ 64) by lia.
  destruct (C10_median_ceiling_bisect_terminates 64 Hw 3 8 HL HR)
    as (_ & [Hceil _] & _ & _ & Hterm).
  split; [auto|]. split; [exact Hceil|]. apply Hterm; lia.
Defined.

(** The search for the count of [three_ints], over [0, 96]. *)
Lemma C4_witness :
  (16 <= 64 /\ 0 <= 3 <= 96 /\ 96 < 2 ^ 64) /\
  bisect 64 97 (is_constructible three_ints) 0 (median 64 0 96) 96 = Some 3.
Proof.
  assert (Hw : 16 <= 64) by lia.
  assert (HN : 0 <= 3 <= 96) by lia.
  assert (HB : 96 < 2 ^ 64) by lia.
  split; [auto|].
  apply (C4_bisect_returns_largest 64 Hw (is_constructible three_ints) 3 96
           HN HB).
  - intros k Hk. apply is_constructible_iff; [reflexivity|cbn; lia].
  - intros k Hk. apply is_constructible_false; [reflexivity|cbn; lia].
  - cbn. lia.
Defined.

Lemma C3_witness :
  (reflexible three_ints = true /\ 0 <= 2 <= bit_size 64 8 three_ints) /\
  (is_constructible three_ints 2 = true <->
   2 <= Z.of_nat (clauses_accepted three_ints)).
Proof.
  assert (Hr : reflexible three_ints = true) by reflexivity.
  assert (Hk : 0 <= 2 <= bit_size 64 8 three_ints) by (vm_compute; intuition discriminate).
  split; [auto|].
  exact (proj1 (C3_is_constructible_iff 64 8 three_ints 2 Hr Hk)).
Defined.

Lemma C9_witness :
  (16 <= 64 /\ 8 <= 8 /\ reflexible empty_class = true /\
   bases empty_class = [] /\ members empty_class = [] /\
   bit_size_representable 64 8 empty_class) /\
  data_member_count 64 8 empty_class = Some 0 /\
  reflect_header 64 8 empty_class 0%N = Some [] /\
  reflect_module 64 8 empty_class 0%N = Some [].
Proof.
  assert (Hw : 16 <= 64) by lia.
  assert (Hc : 8 <= 8) by lia.
  assert (Hr : reflexible empty_class = true) by reflexivity.
  assert (Hb : bases empty_class = []) by reflexivity.
  assert (Hm : members empty_class = []) by reflexivity.
  assert (Hf : bit_size_representable 64 8 empty_class) by (vm_compute; reflexivity).
  destruct (C9_empty_class 64 8 Hw Hc empty_class 0%N Hr Hb Hm Hf)
    as (H0 & Hh & Hmod & _).
  repeat split; assumption.
Defined.

Lemma C7_witness :
  (16 <= 64 /\ data_member_count 64 8 three_ints = Some 3 /\
   decomposable three_ints = true /\
   3 = Z.of_nat (length (data_members three_ints)) /\
   no_bit_field three_ints = true) /\
  (is_Some (reflect_header 64 8 three_ints 0%N) <-> 3 <= 127) /\
  (is_Some (reflect_module 64 8 three_ints 0%N) <-> 3 <= 32) /\
  reflect_module 64 8 three_ints 0%N = reflect_header 64 8 three_ints 0%N.
Proof.
  assert (Hw : 16 <= 64) by lia.
  assert (Hc : data_member_count 64 8 three_ints = Some 3)
    by (vm_compute; reflexivity).
  assert (Hd : decomposable three_ints = true) by reflexivity.
  assert (Hn : 3 = Z.of_nat (length (data_members three_ints)))
    by reflexivity.
  assert (Hb : no_bit_field three_ints = true) by reflexivity.
  destruct (C7_reflect_ceiling 64 8 Hw three_ints 0%N 3 Hc)
    as (Hacc & _ & _ & _ & Hsame).
  destruct (Hacc Hd Hn Hb) as (_ & Hh & Hm).
  split; [auto 10|]. split; [exact Hh|]. split; [exact Hm|]. apply Hsame. lia.
Defined.

Lemma C2_witness :
  (16 <= 64 /\ reflexible three_ints = true /\
   data_member_count 64 8 three_ints = Some 3 /\ 3 <= Z.of_nat 127 /\
   decomposable three_ints = true /\
   3 = Z.of_nat (length (data_members three_ints)) /\
   no_bit_field three_ints = true /\
   no_reference_member three_ints = true) /\
  exists refs,
    reflect 64 8 127 three_ints 7%N = Some refs /\
    Z.of_nat (length refs) = 3 /\
    forall i, 0 <= Z.of_nat i < 3 -> refs !! i = Some (member_of 7%N i).
Proof.
  assert (Hw : 16 <= 64) by lia.
  assert (Hr : reflexible three_ints = true) by reflexivity.
  assert (Hc : data_member_count 64 8 three_ints = Some 3)
    by (vm_compute; reflexivity).
  assert (Hle : 3 <= Z.of_nat 127) by lia.
  assert (Hd : decomposable three_ints = true) by reflexivity.
  assert (Hn : 3 = Z.of_nat (length (data_members three_ints)))
    by reflexivity.
  assert (Hb : no_bit_field three_ints = true) by reflexivity.
  assert (Hf : no_reference_member three_ints = true) by reflexivity.
  destruct (C2_reflect_references_members 64 8 Z Hw 127 three_ints 7%N 3
              Hr Hc Hle Hd Hn Hb Hf) as (refs & Href & Hlen & Hmem & _).
  split; [auto 10|]. exists refs. auto.
Defined.


(** ** Where the claims as stated fail *)

(** C1 (the code at the failing input). struct { int a[2]; } is
    reflexible and has one non-static data member; its count comes out as
    2, the number of array elements, and reflect is then ill-formed under
    both ceilings. *)
Theorem C1_array_member_counted_per_element :
  reflexible one_array = true /\
  length (members one_array) = 1%nat /\
  data_member_count 64 8 one_array = Some 2 /\
  reflect_header 64 8 one_array 0%N = None /\
  reflect_module 64 8 one_array 0%N = None.
Proof. repeat split; vm_compute; reflexivity. Qed.

(** C6 (the code at the failing input). A struct of nine members, each
    of a different empty class type and declared [[no_unique_address]],
    is reflexible and has size 1: the upper bound of the search is 8,
    below its nine members, the count comes out as 8, and reflect is then
    ill-formed under both ceilings. *)
Theorem C6_bit_size_below_member_count :
  reflexible nine_empty = true /\
  length (members nine_empty) = 9%nat /\
  bit_size 64 8 nine_empty = 8 /\
  data_member_count 64 8 nine_empty = Some 8 /\
  reflect_header 64 8 nine_empty 0%N = None /\
  reflect_module 64 8 nine_empty 0%N = None.
Proof. repeat split; vm_compute; reflexivity. Qed.

(** C3 as stated fails on struct { int a[2]; } (one member, two probes
    accepted, braces being elided around the array), on
    union { int a; float b; } (two members, one probe accepted), on a
    struct whose first member has a converting constructor template (two
    members, no probe accepted), on a struct derived from an empty base
    class (no member, one probe accepted, for the base) and on
    struct { int& r = g; } (one member, no probe accepted: the value a
    probe converts to cannot be bound to r). *)
Lemma C3_counterexample :
  (reflexible one_array = true /\
   length (members one_array) = 1%nat /\
   0 <= 2 <= bit_size 64 8 one_array /\
   ~ (is_constructible one_array 2 = true <->
      2 <= Z.of_nat (length (members one_array)))) /\
  (reflexible two_member_union = true /\
   length (members two_member_union) = 2%nat /\
   0 <= 2 <= bit_size 64 8 two_member_union /\
   ~ (is_constructible two_member_union 2 = true <->
      2 <= Z.of_nat (length (members two_member_union)))) /\
  (reflexible has_greedy = true /\
   length (members has_greedy) = 2%nat /\
   0 <= 1 <= bit_size 64 8 has_greedy /\
   ~ (is_constructible has_greedy 1 = true <->
      1 <= Z.of_nat (length (members has_greedy)))) /\
  (reflexible derived_empty = true /\
   length (data_members derived_empty) = 0%nat /\
   0 <= 1 <= bit_size 64 8 derived_empty /\
   ~ (is_constructible derived_empty 1 = true <->
      1 <= Z.of_nat (length (data_members derived_empty)))) /\
  (reflexible lvalue_reference = true /\
   length (members lvalue_reference) = 1%nat /\
   0 <= 1 <= bit_size 64 8 lvalue_reference /\
   ~ (is_constructible lvalue_reference 1 = true <->
      1 <= Z.of_nat (length (members lvalue_reference)))).
Proof.
  repeat split; solve [reflexivity | vm_compute; intuition discriminate].
Qed.

(** C2 as stated fails on struct { int a[2]; } (count 2, one member), on
    struct { unsigned flag : 1; } (a bit-field), on
    struct { int tag; union { int i; float f; }; } (an anonymous union
    member), on union { int a; } (a union) and on
    struct D : B { int y; } with B = struct { int x; } (members in two
    classes): the count is below both ceilings, in the last four it is
    the number of members, and reflect returns no sequence.  On
    std::array<int, 1> (tuple-like) reflect returns a reference to
    get<0>(x), the element, not to the member, which is the array; on
    struct { const int& r = g; } it returns a reference to g, which is no
    storage of the instance. *)
Lemma C2_counterexample :
  (reflexible one_array = true /\
   data_member_count 64 8 one_array = Some 2 /\ 2 <= 32 /\
   reflect_header 64 8 one_array 0%N = None /\
   reflect_module 64 8 one_array 0%N = None) /\
  (reflexible one_bit_field = true /\
   data_member_count 64 8 one_bit_field = Some 1 /\ 1 <= 32 /\
   reflect_header 64 8 one_bit_field 0%N = None /\
   reflect_module 64 8 one_bit_field 0%N = None) /\
  (reflexible tagged_union = true /\
   data_member_count 64 8 tagged_union
     = Some (Z.of_nat (length (data_members tagged_union))) /\
   reflect_header 64 8 tagged_union 0%N = None /\
   reflect_module 64 8 tagged_union 0%N = None) /\
  (reflexible one_member_union = true /\
   data_member_count 64 8 one_member_union
     = Some (Z.of_nat (length (data_members one_member_union))) /\
   reflect_header 64 8 one_member_union 0%N = None /\
   reflect_module 64 8 one_member_union 0%N = None) /\
  (reflexible split_members = true /\
   data_member_count 64 8 split_members
     = Some (Z.of_nat (length (data_members split_members))) /\
   reflect_header 64 8 split_members 0%N = None /\
   reflect_module 64 8 split_members 0%N = None) /\
  (reflexible array_of_one = true /\
   data_member_count 64 8 array_of_one
     = Some (Z.of_nat (length (data_members array_of_one))) /\
   reflect_header 64 8 array_of_one 0%N = Some [tuple_element 0%N 0] /\
   tuple_element 0%N 0 <> member_of 0%N 0) /\
  (reflexible const_reference = true /\
   data_member_count 64 8 const_reference
     = Some (Z.of_nat (length (data_members const_reference))) /\
   reflect_header 64 8 const_reference 0%N = Some [referee_of 0%N 0] /\
   referee_of 0%N 0 <> member_of 0%N 0).
Proof. repeat split; solve [vm_compute; reflexivity | lia | discriminate]. Qed.

(** C7 as stated fails on struct { int n; int v[3]; } (count 4, two
    members), on struct { unsigned flag : 1; }, on
    struct { int tag; union { int i; float f; }; }, on union { int a; }
    and on a struct of two members for which the program specialises
    std::tuple_size with the value 3: the count is at most 32 and
    reflect is rejected by the header and by the module. *)
Lemma C7_counterexample :
  (reflexible int_and_array = true /\
   data_member_count 64 8 int_and_array = Some 4 /\ 4 <= 32 /\
   ~ is_Some (reflect_header 64 8 int_and_array 0%N) /\
   ~ is_Some (reflect_module 64 8 int_and_array 0%N)) /\
  (reflexible one_bit_field = true /\
   data_member_count 64 8 one_bit_field = Some 1 /\ 1 <= 32 /\
   ~ is_Some (reflect_header 64 8 one_bit_field 0%N) /\
   ~ is_Some (reflect_module 64 8 one_bit_field 0%N)) /\
  (reflexible tagged_union = true /\
   data_member_count 64 8 tagged_union = Some 2 /\ 2 <= 32 /\
   ~ is_Some (reflect_header 64 8 tagged_union 0%N) /\
   ~ is_Some (reflect_module 64 8 tagged_union 0%N)) /\
  (reflexible one_member_union = true /\
   data_member_count 64 8 one_member_union = Some 1 /\ 1 <= 32 /\
   ~ is_Some (reflect_header 64 8 one_member_union 0%N) /\
   ~ is_Some (reflect_module 64 8 one_member_union 0%N)) /\
  (reflexible pair_of_size_three = true /\
   data_member_count 64 8 pair_of_size_three = Some 2 /\ 2 <= 32 /\
   ~ is_Some (reflect_header 64 8 pair_of_size_three 0%N) /\
   ~ is_Some (reflect_module 64 8 pair_of_size_three 0%N)).
Proof.
  repeat split;
    solve [vm_compute; reflexivity | lia
          | intros [refs Hrefs]; vm_compute in Hrefs; discriminate].
Qed.


(** C9 as stated fails on struct D : E { } with E = struct { }: D is
    reflexible and has no non-static data member, its own or inherited;
    one probe is accepted, for the base class, so the count is 1 and
    reflect, which binds one name, is ill-formed. *)
Lemma C9_counterexample :
  reflexible derived_empty = true /\
  members derived_empty = [] /\ data_members derived_empty = [] /\
  bit_size_representable 64 8 derived_empty /\
  data_member_count 64 8 derived_empty = Some 1 /\
  reflect_header 64 8 derived_empty 0%N = None /\
  reflect_module 64 8 derived_empty 0%N = None.
Proof. repeat split; vm_compute; reflexivity. Qed.

(** ** The counter across platforms *)

(** X9. The count depends on the declaration through its class key, its
    base classes and its members alone: two reflexible declarations that
    agree on these give the same count on any two platforms (width of
    std::size_t, CHAR_BIT, sizeof) on which the bit size is
    representable and not below the number of clauses accepted. *)
Theorem X9_count_platform_independent
    (size_bits CHAR_BIT size_bits' CHAR_BIT' : Z) (T T' : class_decl) :
  16 <= size_bits -> 8 <= CHAR_BIT -> 16 <= size_bits' -> 8 <= CHAR_BIT' ->
  key T = key T' -> bases T = bases T' -> members T = members T' ->
  reflexible T = true -> reflexible T' = true ->
  bit_size_representable size_bits CHAR_BIT T ->
  bit_size_representable size_bits' CHAR_BIT' T' ->
  Z.of_nat (clauses_accepted T) <= bit_size size_bits CHAR_BIT T ->
  Z.of_nat (clauses_accepted T') <= bit_size size_bits' CHAR_BIT' T' ->
  data_member_count size_bits CHAR_BIT T =
  data_member_count size_bits' CHAR_BIT' T'.
Proof.
  intros Hw Hc Hw' Hc' Hkey Hbases Hms Hr Hr' Hfit Hfit' Hle Hle'.
  unfold data_member_count. rewrite Hr, Hr'.
  rewrite !count_data_members_eq by assumption.
  assert (Hcl : clauses_accepted T = clauses_accepted T')
    by (unfold clauses_accepted, elements; now rewrite Hkey, Hbases, Hms).
  f_equal. lia.
Qed.

(** ** The further properties at concrete types *)

(** struct { int a[2]; }: the count is the two clauses it accepts. *)
Lemma X1_witness :
  (16 <= 64 /\ 8 <= 8 /\ 8 < 2 ^ 64) /\
  (data_member_count 64 8 one_array = Some 2 <->
   reflexible one_array = true /\ bit_size_representable 64 8 one_array /\
   2 = Z.min (Z.of_nat (clauses_accepted one_array))
             (bit_size 64 8 one_array)).
Proof.
  assert (Hw : 16 <= 64) by lia.
  assert (Hc : 8 <= 8) by lia.
  assert (Hs : 8 < 2 ^ 64) by lia.
  split; [auto|].
  exact (proj1 (X1_data_member_count_value 64 8 Hw Hc one_array 2 Hs)).
Defined.

(** struct { char a[2^61]; }: its size in bits is 2^64, which wraps to 0;
    the static_assert fails and nothing is computed. *)
Lemma X2_witness :
  let T := Class false false false
             [Field (Arr Obj 2305843009213693952)] true true true
             2305843009213693952 in
  (16 <= 64 /\ 8 <= 8 /\ 8 < 2 ^ 64 /\ ~ bit_size_representable 64 8 T) /\
  count_data_members 64 8 T = None /\
  data_member_count 64 8 T = None /\
  forall limit x, reflect 64 8 limit T x = None.
Proof.
  intros T.
  assert (Hw : 16 <= 64) by lia.
  assert (Hc : 8 <= 8) by lia.
  assert (Hs : 8 < 2 ^ 64) by lia.
  assert (Hwrap : ~ bit_size_representable 64 8 T)
    by (vm_compute; discriminate).
  destruct (X2_static_assert_guard 64 8 Hw Hc T Hs) as [Hiff Hrej].
  split; [auto|]. split; [now apply Hiff|]. now apply Hrej.
Defined.

(** The counter on struct { int a; int b; int c; }: log2 96 + 2 = 8
    instantiations. *)
Lemma X3_witness :
  (16 <= 64 /\ 8 <= 8 /\ 0 <= 0 /\ 0 <= 96 /\ 96 < 2 ^ 64 /\
   Z.log2 (96 - 0) + 2 <= Z.of_nat 8) /\
  (exists k,
     bisect 64 8 (is_constructible three_ints) 0 (median 64 0 96) 96 = Some k
     /\ 0 <= k <= 96) /\
  bisect 64 8 (is_constructible three_ints) 0 (median 64 0 96) 96 =
  count_data_members 64 8 three_ints.
Proof.
  assert (Hw : 16 <= 64) by lia.
  assert (Hc : 8 <= 8) by lia.
  assert (HL : 0 <= 0) by lia.
  assert (HLR : 0 <= 96) by lia.
  assert (HR : 96 < 2 ^ 64) by lia.
  assert (Hf : Z.log2 (96 - 0) + 2 <= Z.of_nat 8) by (vm_compute; discriminate).
  destruct (X3_bisect_logarithmic 64 8 Hw Hc (is_constructible three_ints)
              0 96 8 HL HLR HR Hf) as [Hk Hcount].
  split; [auto 10|]. split; [exact Hk|].
  apply Hcount; [reflexivity|reflexivity|]. vm_compute. reflexivity.
Defined.

(** A test that is not monotone (it succeeds at the even numbers): the
    search over [0, 8] returns 6, where it succeeds and fails just
    above. *)
Lemma X4_witness :
  (16 <= 64 /\ 0 <= 0 /\ 0 <= 8 /\ 8 < 2 ^ 64 /\
   bisect 64 10 Z.even 0 (median 64 0 8) 8 = Some 6) /\
  0 <= 6 <= 8 /\ (6 = 0 \/ Z.even 6 = true) /\
  (6 = 8 \/ Z.even (6 + 1) = false).
Proof.
  assert (Hw : 16 <= 64) by lia.
  assert (HL : 0 <= 0) by lia.
  assert (HLR : 0 <= 8) by lia.
  assert (HR : 8 < 2 ^ 64) by lia.
  assert (Hk : bisect 64 10 Z.even 0 (median 64 0 8) 8 = Some 6)
    by (vm_compute; reflexivity).
  split; [auto 10|].
  exact (X4_bisect_boundary 64 Hw Z.even 10 0 8 6 HL HLR HR Hk).
Defined.


Lemma X6_witness :
  (16 <= 64 /\ (32 <= 127)%nat /\
   reflect 64 8 32 three_ints 7%N
     = Some [member_of 7%N 0; member_of 7%N 1; member_of 7%N 2]) /\
  reflect 64 8 127 three_ints 7%N
    = Some [member_of 7%N 0; member_of 7%N 1; member_of 7%N 2].
Proof.
  assert (Hw : 16 <= 64) by lia.
  assert (Hle : (32 <= 127)%nat) by lia.
  assert (Hrefs : reflect 64 8 32 three_ints 7%N
            = Some [member_of 7%N 0; member_of 7%N 1; member_of 7%N 2])
    by (vm_compute; reflexivity).
  split; [auto|].
  exact (proj1 (X6_reflect_ceiling_monotone 64 8 Hw 32 127 three_ints 7%N _
                  Hle Hrefs)).
Defined.

(** struct { int n; int v[3]; }: two members, count 4, and the member v
    accepts three clauses. *)
Lemma X7_witness :
  (16 <= 64 /\ 8 <= 8 /\ reflexible int_and_array = true /\
   bit_size_representable 64 8 int_and_array /\
   Z.of_nat (clauses_accepted int_and_array) <= bit_size 64 8 int_and_array /\
   key int_and_array = Struct /\ bases int_and_array = [] /\
   Forall (fun m => clauses_of_member m <> 0%nat) (members int_and_array)) /\
  (data_member_count 64 8 int_and_array
     = Some (Z.of_nat (length (members int_and_array))) <->
   Forall (fun m => clauses_of_member m = 1%nat) (members int_and_array)) /\
  exists count, data_member_count 64 8 int_and_array = Some count /\
                Z.of_nat (length (members int_and_array)) <= count.
Proof.
  assert (Hw : 16 <= 64) by lia.
  assert (Hc : 8 <= 8) by lia.
  assert (Hr : reflexible int_and_array = true) by reflexivity.
  assert (Hfit : bit_size_representable 64 8 int_and_array)
    by (vm_compute; reflexivity).
  assert (Hle : Z.of_nat (clauses_accepted int_and_array)
                <= bit_size 64 8 int_and_array)
    by (vm_compute; discriminate).
  assert (Hkey : key int_and_array = Struct) by reflexivity.
  assert (Hbases : bases int_and_array = []) by reflexivity.
  assert (Hinit : Forall (fun m => clauses_of_member m <> 0%nat)
                         (members int_and_array))
    by (repeat constructor; vm_compute; discriminate).
  split; [auto 10|].
  exact (X7_count_exact_iff 64 8 Hw Hc int_and_array Hr Hfit Hle
           Hkey Hbases Hinit).
Defined.

Lemma X8_witness :
  (reflexible three_ints = true /\ 1 <= 3 /\
   is_constructible three_ints 3 = true) /\
  is_constructible three_ints 1 = true /\
  is_constructible three_ints 0 = true /\
  constructible_from three_ints [5; 9]%nat =
    is_constructible three_ints (Z.of_nat (length [5; 9]%nat)).
Proof.
  assert (Hr : reflexible three_ints = true) by reflexivity.
  assert (Hjk : 1 <= 3) by lia.
  assert (Hk : is_constructible three_ints 3 = true) by reflexivity.
  split; [auto|].
  exact (X8_is_constructible_monotone three_ints [5; 9]%nat 1 3 Hr Hjk Hk).
Defined.

(** The same three members on a 64-bit platform (sizeof 12) and on a
    16-bit platform with 16-bit bytes (sizeof 3). *)
Lemma X9_witness :
  let T' := Class false false false [Field Obj; Field Obj; Field Obj]
              true true true 3 in
  (16 <= 64 /\ 8 <= 8 /\ 16 <= 16 /\ 8 <= 16 /\
   key three_ints = key T' /\ bases three_ints = bases T' /\
   members three_ints = members T' /\
   reflexible three_ints = true /\ reflexible T' = true /\
   bit_size_representable 64 8 three_ints /\
   bit_size_representable 16 16 T') /\
  data_member_count 64 8 three_ints = data_member_count 16 16 T'.
Proof.
  intros T'.
  assert (Hw : 16 <= 64) by lia.
  assert (Hc : 8 <= 8) by lia.
  assert (Hw' : 16 <= 16) by lia.
  assert (Hc' : 8 <= 16) by lia.
  assert (Hkey : key three_ints = key T') by reflexivity.
  assert (Hbases : bases three_ints = bases T') by reflexivity.
  assert (Hms : members three_ints = members T') by reflexivity.
  assert (Hr : reflexible three_ints = true) by reflexivity.
  assert (Hr' : reflexible T' = true) by reflexivity.
  assert (Hfit : bit_size_representable 64 8 three_ints)
    by (vm_compute; reflexivity).
  assert (Hfit' : bit_size_representable 16 16 T')
    by (vm_compute; reflexivity).
  split; [auto 15|].
  apply (X9_count_platform_independent 64 8 16 16 three_ints T'
           Hw Hc Hw' Hc' Hkey Hbases Hms Hr Hr' Hfit Hfit');
    vm_compute; discriminate.
Defined.
